(** * Steel vs Aluminium selection tool: the beam evaluator and its
      recommendation rule (app.py)

    Shallow embedding of [beam_udl_calculations] and of the decisions made in
    [application_1_beam_udl], [application_2_weight], [application_3_cost]
    and [application_4_corrosion].  [application_5_element] is left out: the
    text of its last branches is not part of the source at hand.

    Numbers.  Every number of the program is a Python [float], that is an
    IEEE 754 binary64 value, and is a primitive [float] here: products and
    quotients round to nearest (ties to even), overflow gives an infinity,
    invalid operations give NaN.  On top of this arithmetic Python raises
    [ZeroDivisionError] when a divisor is zero and [OverflowError] when the
    result of [**] is too large; both are kept.  The integer entries of the
    two material dictionaries (400, 250, 200, 7850, ...) are read at their
    float value, to which Python converts them, exactly, at each use. *)

From Stdlib Require Import ZArith QArith Qpower Bool String List Lia Lqa.
From Stdlib Require Import Uint63 Floats.
Import ListNotations.

Set Warnings "-inexact-float".

Local Open Scope float_scope.

(** ** Python values and exceptions *)

Module Py.

(** The two exceptions the arithmetic of app.py can raise. *)
Inductive exn : Type :=
| ZeroDivisionError
| OverflowError.

Definition exn_name (e : exn) : string :=
  match e with
  | ZeroDivisionError => "ZeroDivisionError"
  | OverflowError => "OverflowError"
  end.

Inductive result (A : Type) : Type :=
| Ok (a : A)
| Raise (e : exn).

Arguments Ok {A} a.
Arguments Raise {A} e.

Definition bind {A B : Type} (m : result A) (k : A -> result B) : result B :=
  match m with
  | Ok a => k a
  | Raise e => Raise e
  end.

(** [x / y] on floats: [float_div] raises when the divisor compares equal to
    zero (either zero), and divides otherwise. *)
Definition div (x y : float) : result float :=
  if y =? 0 then Raise ZeroDivisionError else Ok (x / y).

(** The C library's [pow] on a finite base above zero and a positive integer
    exponent: the power, computed exactly on the mantissa, rounded once to
    binary64. *)
Definition libm_pow (a : float) (n : positive) : float :=
  match Prim2SF a with
  | S754_finite false m e =>
      SF2Prim (binary_normalize prec emax (Zpos (Pos.pow m n)) (e * Zpos n) false)
  | _ => nan
  end.

Definition is_odd (n : positive) : bool :=
  match n with
  | xO _ => false
  | _ => true
  end.

(** [iv ** n] for a float [iv] and a positive integer literal [n], after
    CPython's [float_pow]: NaN, the infinities, the zeros and one are
    answered without calling [pow]; a base below zero is negated first and
    the sign put back for an odd exponent; a result of [pow] that is an
    infinity sets ERANGE and raises [OverflowError], a result that underflows
    to zero does not raise. *)
Definition pow (iv : float) (n : positive) : result float :=
  if is_nan iv then Ok iv
  else if is_infinity iv then Ok (if is_odd n then iv else abs iv)
  else if iv =? 0 then Ok (if is_odd n then iv else 0)
  else
    let negate_result := (iv <? 0) && is_odd n in
    let a := if iv <? 0 then - iv else iv in
    if a =? 1 then Ok (if negate_result then -1 else 1)
    else
      let ix := libm_pow a n in
      if is_infinity ix then Raise OverflowError
      else Ok (if negate_result then - ix else ix).

End Py.

Import Py.

Notation "x <- m ;; k" := (Py.bind m (fun x => k))
  (at level 61, m at next level, right associativity).

(** ** Material property data (app.py, lines 16-34) *)

Record Material : Type := mkMaterial {
  name : string;
  tensile_strength : float;   (* MPa *)
  yield_strength : float;     (* MPa *)
  E : float;                  (* GPa *)
  density : float;            (* kg/m3 *)
  cost : float;               (* RM/kg *)
  corrosion_rating : Q        (* /5; never used in arithmetic *)
}.

Definition steel : Material :=
  {| name := "Steel";
     tensile_strength := 400;
     yield_strength := 250;
     E := 200;
     density := 7850;
     cost := 3.0;
     corrosion_rating := 2%Q |}.

Definition aluminum : Material :=
  {| name := "Aluminium";
     tensile_strength := 310;
     yield_strength := 275;
     E := 69;
     density := 2700;
     cost := 12.0;
     corrosion_rating := 5%Q |}.

(** ** The dictionary returned by [beam_udl_calculations]

    One field per key, in the order of the source:
    "Mmax(Nm)", "I(m4)", "Stress(MPa)", "FOS", "Deflection(mm)",
    "Allowable(mm)", "PASS?", "Volume(m3)", "Mass(kg)", "Cost(RM)". *)

Record BeamResult : Type := mkBeamResult {
  Mmax_Nm : float;
  I_m4 : float;
  Stress_MPa : float;
  FOS : float;
  Deflection_mm : float;
  Allowable_mm : float;
  PASS : bool;
  Volume_m3 : float;
  Mass_kg : float;
  Cost_RM : float
}.

(** ** [beam_udl_calculations] (app.py, lines 39-86) *)

Definition beam_udl_calculations (L w_kN_m b h : float) (mat : Material)
  : result BeamResult :=
  let w := w_kN_m * 1000.0 in
  L2 <- pow L 2 ;;
  Mmax <- div (w * L2) 8.0 ;;
  h3 <- pow h 3 ;;
  I <- div (b * h3) 12.0 ;;
  c <- div h 2.0 ;;
  sigma <- div (Mmax * c) I ;;
  sigma_MPa <- div sigma 1e6 ;;
  let E_Pa := E mat * 1e9 in
  let sigma_y := yield_strength mat in
  fos <- (if 0 <? sigma_MPa then div sigma_y sigma_MPa else Ok infinity) ;;
  L4 <- pow L 4 ;;
  delta <- div (5 * w * L4) (384 * E_Pa * I) ;;
  let delta_mm := delta * 1000.0 in
  l360 <- div L 360.0 ;;
  let delta_allow := l360 * 1000.0 in
  let V := b * h * L in
  let mass := density mat * V in
  let total_cost := mass * cost mat in
  Ok {| Mmax_Nm := Mmax;
        I_m4 := I;
        Stress_MPa := sigma_MPa;
        FOS := fos;
        Deflection_mm := delta_mm;
        Allowable_mm := delta_allow;
        PASS := delta_mm <=? delta_allow;
        Volume_m3 := V;
        Mass_kg := mass;
        Cost_RM := total_cost |}.

(** ** The decision of [application_1_beam_udl] (app.py, lines 114-126)

    Each of the four [st.success] calls names a material and a reason; the
    four reasons are the tags of [Rationale], in the order of the source. *)

Inductive Winner : Type :=
| STEEL
| ALUMINIUM.

Inductive Rationale : Type :=
| ALU_FAILS_SERVICEABILITY      (* "(Aluminium fails deflection/serviceability)." *)
| STEEL_FAILS_SERVICEABILITY    (* "(Steel fails deflection/serviceability)." *)
| COST_EFFECTIVE                (* "(more cost-effective)." *)
| LIGHTER_OR_WEIGHT_PRIORITY.   (* "(lighter / may be preferred if weight is priority)." *)

Definition Recommendation : Type := (Winner * Rationale)%type.

Definition select_winner (steel_res alu_res : BeamResult) : Recommendation :=
  let steel_pass := PASS steel_res in
  let alu_pass := PASS alu_res in
  if steel_pass && negb alu_pass then
    (STEEL, ALU_FAILS_SERVICEABILITY)
  else if alu_pass && negb steel_pass then
    (ALUMINIUM, STEEL_FAILS_SERVICEABILITY)
  else
    if Cost_RM steel_res <? Cost_RM alu_res then
      (STEEL, COST_EFFECTIVE)
    else
      (ALUMINIUM, LIGHTER_OR_WEIGHT_PRIORITY).

(** The text handed to [st.success] on each of the four branches. *)
Definition message (r : Recommendation) : string :=
  match r with
  | (_, ALU_FAILS_SERVICEABILITY) =>
      "✅ Final Recommendation: **STEEL** (Aluminium fails deflection/serviceability)."
  | (_, STEEL_FAILS_SERVICEABILITY) =>
      "✅ Final Recommendation: **ALUMINIUM** (Steel fails deflection/serviceability)."
  | (_, COST_EFFECTIVE) =>
      "✅ Final Recommendation: **STEEL** (more cost-effective)."
  | (_, LIGHTER_OR_WEIGHT_PRIORITY) =>
      "✅ Final Recommendation: **ALUMINIUM** (lighter / may be preferred if weight is priority)."
  end.

(** [application_1_beam_udl] once the button is pressed: both materials are
    evaluated on the same four inputs, then the decision is taken. *)
Definition application_1_beam_udl (L w b h : float) : result Recommendation :=
  steel_res <- beam_udl_calculations L w b h steel ;;
  alu_res <- beam_udl_calculations L w b h aluminum ;;
  Ok (select_winner steel_res alu_res).

(** ** Application 2: weight-based selection (app.py, lines 131-150)

    The two masses are written with two decimals; the numbers themselves are
    kept here, with the material of the [st.success] message. *)

Record WeightReport : Type := mkWeightReport {
  Steel_Mass : float;
  Aluminium_Mass : float;
  weight_choice : Winner
}.

Definition application_2_weight (L b h : float) : WeightReport :=
  let V := b * h * L in
  let ms := density steel * V in
  let ma := density aluminum * V in
  {| Steel_Mass := ms;
     Aluminium_Mass := ma;
     weight_choice :=
       if ma <? ms
       then ALUMINIUM   (* "(lighter → better for weight reduction)." *)
       else STEEL       (* "(unlikely, but heavier geometry case)." *) |}.

(** ** Application 3: cost-based selection (app.py, lines 155-174) *)

Record CostReport : Type := mkCostReport {
  Steel_Estimated_Cost : float;
  Aluminium_Estimated_Cost : float;
  cost_choice : Winner
}.

Definition application_3_cost (L b h : float) : CostReport :=
  let V := b * h * L in
  let steel_cost := (density steel * V) * cost steel in
  let alu_cost := (density aluminum * V) * cost aluminum in
  {| Steel_Estimated_Cost := steel_cost;
     Aluminium_Estimated_Cost := alu_cost;
     cost_choice :=
       if steel_cost <? alu_cost
       then STEEL       (* "**STEEL** (cheaper)." *)
       else ALUMINIUM   (* "**ALUMINIUM** (cheaper)." *) |}.

(** ** Application 4: corrosion resistance (app.py, lines 179-187) *)

(** The options of the [st.selectbox]. *)
Definition environments : list string :=
  ["Indoor (dry)"; "Outdoor (normal)"; "Coastal / Corrosive"]%string.

Definition application_4_corrosion (env : string) : Winner :=
  if String.eqb env "Coastal / Corrosive"
  then ALUMINIUM   (* "(better corrosion resistance)." *)
  else STEEL.      (* "(cost-effective; corrosion can be protected with coating)." *)

(** The catalog record a recommendation names. *)
Definition material_of (w : Winner) : Material :=
  match w with
  | STEEL => steel
  | ALUMINIUM => aluminum
  end.

(** ** Vocabulary of the statements *)

(** The dictionary the evaluator returns when nothing raises, from the four
    inputs and the three powers [L**2], [h**3] and [L**4]. *)
Definition I_of (b h3 : float) : float := (b * h3) / 12.0.

Definition K_of (b h3 : float) (mat : Material) : float :=
  384 * (E mat * 1e9) * I_of b h3.

Definition sigma_MPa_of (w_kN_m h b L2 h3 : float) : float :=
  ((((w_kN_m * 1000.0) * L2) / 8.0 * (h / 2.0)) / I_of b h3) / 1e6.

Definition delta_mm_of (w_kN_m b h3 L4 : float) (mat : Material) : float :=
  ((5 * (w_kN_m * 1000.0) * L4) / K_of b h3 mat) * 1000.0.

Definition delta_allow_of (L : float) : float := (L / 360.0) * 1000.0.

Definition beam_fields (L w_kN_m b h L2 h3 L4 : float) (mat : Material)
  : BeamResult :=
  {| Mmax_Nm := ((w_kN_m * 1000.0) * L2) / 8.0;
     I_m4 := I_of b h3;
     Stress_MPa := sigma_MPa_of w_kN_m h b L2 h3;
     FOS := if 0 <? sigma_MPa_of w_kN_m h b L2 h3
            then yield_strength mat / sigma_MPa_of w_kN_m h b L2 h3
            else infinity;
     Deflection_mm := delta_mm_of w_kN_m b h3 L4 mat;
     Allowable_mm := delta_allow_of L;
     PASS := delta_mm_of w_kN_m b h3 L4 mat <=? delta_allow_of L;
     Volume_m3 := b * h * L;
     Mass_kg := density mat * (b * h * L);
     Cost_RM := density mat * (b * h * L) * cost mat |}.

(** The inputs the specification calls valid. *)
Definition valid_input (L w b h : float) : Prop :=
  (0 <? L) = true /\ (0 <=? w) = true /\ (0 <? b) = true /\ (0 <? h) = true.

(** [x] is [y] up to [tol]. *)
Definition approx (tol x y : float) : Prop := (abs (x - y) <=? tol) = true.

(** Exchanging the roles of the two materials in a recommendation. *)
Definition mirror_winner (w : Winner) : Winner :=
  match w with
  | STEEL => ALUMINIUM
  | ALUMINIUM => STEEL
  end.

Definition mirror_rationale (t : Rationale) : Rationale :=
  match t with
  | ALU_FAILS_SERVICEABILITY => STEEL_FAILS_SERVICEABILITY
  | STEEL_FAILS_SERVICEABILITY => ALU_FAILS_SERVICEABILITY
  | COST_EFFECTIVE => LIGHTER_OR_WEIGHT_PRIORITY
  | LIGHTER_OR_WEIGHT_PRIORITY => COST_EFFECTIVE
  end.

Definition mirror (r : Recommendation) : Recommendation :=
  (mirror_winner (fst r), mirror_rationale (snd r)).

(** The default geometry and load of the form (lines 95-98). *)
Definition L0 : float := 6.0.
Definition w0 : float := 12.0.
Definition b0 : float := 0.10.
Definition h0 : float := 0.20.

(** Concrete selector inputs: results that pass or fail, of cost 100 or
    200, and of unrelated masses. *)
Definition res_pass_100 : BeamResult :=
  {| Mmax_Nm := 1; I_m4 := 1; Stress_MPa := 1; FOS := 1;
     Deflection_mm := 1; Allowable_mm := 2; PASS := true;
     Volume_m3 := 1; Mass_kg := 50; Cost_RM := 100 |}.

Definition res_fail_100 : BeamResult :=
  {| Mmax_Nm := 2; I_m4 := 2; Stress_MPa := 2; FOS := 2;
     Deflection_mm := 3; Allowable_mm := 2; PASS := false;
     Volume_m3 := 2; Mass_kg := 10; Cost_RM := 100 |}.

Definition res_pass_100b : BeamResult :=
  {| Mmax_Nm := 3; I_m4 := 3; Stress_MPa := 3; FOS := 3;
     Deflection_mm := 2; Allowable_mm := 2; PASS := true;
     Volume_m3 := 3; Mass_kg := 20; Cost_RM := 100 |}.

Definition res_pass_200 : BeamResult :=
  {| Mmax_Nm := 1; I_m4 := 1; Stress_MPa := 1; FOS := 1;
     Deflection_mm := 1; Allowable_mm := 2; PASS := true;
     Volume_m3 := 1; Mass_kg := 5; Cost_RM := 200 |}.

(** ** Classes of binary64 values used in the statements *)

(** Zero of either sign, a finite value above zero, or plus infinity. *)
Definition SFnn (x : spec_float) : Prop :=
  match x with
  | S754_zero _ => True
  | S754_infinity s => s = false
  | S754_finite s _ _ => s = false
  | S754_nan => False
  end.

(** A finite value above zero. *)
Definition SFfinpos (x : spec_float) : Prop :=
  match x with
  | S754_finite s _ _ => s = false
  | _ => False
  end.

(** A finite value above zero, or plus infinity. *)
Definition SFpos (x : spec_float) : Prop :=
  match x with
  | S754_infinity s => s = false
  | S754_finite s _ _ => s = false
  | _ => False
  end.

Definition shr_nonneg (r : shr_record) : Prop := (0 <= shr_m r)%Z.

(** The same on floats. *)
Definition nn (x : float) : Prop := SFnn (Prim2SF x).

Definition nnn (x : float) : Prop := nn x \/ is_nan x = true.

(** A zero or a finite value. *)
Definition SFfin (x : spec_float) : Prop :=
  match x with
  | S754_zero _ | S754_finite _ _ _ => True
  | _ => False
  end.

(** * Properties *)

(** Closed statements on concrete numbers are settled by evaluation. *)
Ltac by_computation :=
  vm_compute; first [reflexivity | discriminate | exact I].

Ltac refute_by_computation :=
  let H := fresh in intros H; vm_compute in H;
  first [discriminate H | apply H; reflexivity].

(** ** Order and equality of binary64 values *)

Section FloatOrder.

Lemma SFcompare_antisym (x y : spec_float) (c : comparison) :
  SFcompare x y = Some c -> SFcompare y x = Some (CompOpp c).
Proof.
  destruct x as [sx | sx | | sx mx ex], y as [sy | sy | | sy my ey];
    cbn; try discriminate;
    try (intros [= <-]; try destruct sx; try destruct sy; reflexivity).
  intros [= <-]. f_equal.
  change (PosDef.Pos.compare_cont Eq my mx) with (Pos.compare my mx).
  change (PosDef.Pos.compare_cont Eq mx my) with (Pos.compare mx my).
  rewrite (Z.compare_antisym ex ey), (Pos.compare_antisym mx my).
  destruct sx, sy, (ex ?= ey)%Z, (mx ?= my)%positive; reflexivity.
Qed.

Lemma ltb_asym (x y : float) : (x <? y) = true -> (y <? x) = false.
Proof.
  rewrite !ltb_spec. unfold SFltb.
  destruct (SFcompare (Prim2SF x) (Prim2SF y)) as [[ | | ] | ] eqn:Hc;
    try discriminate.
  now rewrite (SFcompare_antisym _ _ _ Hc).
Qed.

Lemma ltb_leb (x y : float) : (x <? y) = true -> (x <=? y) = true.
Proof.
  rewrite ltb_spec, leb_spec. unfold SFltb, SFleb.
  now destruct (SFcompare (Prim2SF x) (Prim2SF y)) as [[ | | ] | ].
Qed.

Lemma eqb_leb (x y : float) : (x =? y) = true -> (x <=? y) = true.
Proof.
  rewrite eqb_spec, leb_spec. unfold SFeqb, SFleb.
  now destruct (SFcompare (Prim2SF x) (Prim2SF y)) as [[ | | ] | ].
Qed.

Lemma ltb_not_eqb (x y : float) : (x <? y) = true -> (y =? x) = false.
Proof.
  rewrite ltb_spec, eqb_spec. unfold SFltb, SFeqb.
  destruct (SFcompare (Prim2SF x) (Prim2SF y)) as [[ | | ] | ] eqn:Hc;
    try discriminate.
  now rewrite (SFcompare_antisym _ _ _ Hc).
Qed.

Lemma leb_not_ltb (x y : float) : (x <=? y) = true -> (y <? x) = false.
Proof.
  rewrite ltb_spec, leb_spec. unfold SFltb, SFleb.
  destruct (SFcompare (Prim2SF x) (Prim2SF y)) as [[ | | ] | ] eqn:Hc;
    try discriminate; now rewrite (SFcompare_antisym _ _ _ Hc).
Qed.

Lemma is_nan_spec (x : float) : is_nan x = true <-> Prim2SF x = S754_nan.
Proof.
  unfold is_nan. rewrite eqb_spec. unfold SFeqb.
  destruct (Prim2SF x) as [s | s | | s m e]; cbn.
  - split; discriminate.
  - destruct s; split; discriminate.
  - split; reflexivity.
  - change (PosDef.Pos.compare_cont Eq m m) with (Pos.compare m m).
    rewrite Z.compare_refl, Pos.compare_refl.
    destruct s; split; discriminate.
Qed.

Lemma nan_not_ltb (x y : float) : is_nan y = true -> (x <? y) = false.
Proof.
  rewrite is_nan_spec, ltb_spec. intros ->. unfold SFltb.
  now destruct (Prim2SF x).
Qed.

End FloatOrder.

(** ** Signs of binary64 results

    A product or a quotient of two values that are not below zero is not
    below zero; it may be NaN (zero times infinity, zero by zero, infinity by
    infinity). *)

Section Signs.

Lemma shr_1_nonneg (r : shr_record) : shr_nonneg r -> shr_nonneg (shr_1 r).
Proof.
  destruct r as [m r s]. unfold shr_nonneg. cbn.
  destruct m as [ | [p | p | ] | p ]; cbn; lia.
Qed.

Lemma iter_pos_invariant {A : Type} (P : A -> Prop) (f : A -> A) :
  (forall x, P x -> P (f x)) ->
  forall (n : positive) (x : A), P x -> P (iter_pos f n x).
Proof.
  intros Hf. induction n as [n IH | n IH | ]; intros x Hx; cbn; auto.
Qed.

Lemma shr_record_of_loc_m (m : Z) (l : location) :
  shr_m (shr_record_of_loc m l) = m.
Proof.
  now destruct l as [ | [ | | ] ].
Qed.

Lemma shr_fexp_nonneg (m e : Z) (l : location) :
  (0 <= m)%Z -> shr_nonneg (fst (shr_fexp prec emax m e l)).
Proof.
  intros Hm. unfold shr_fexp, shr.
  assert (H0 : shr_nonneg (shr_record_of_loc m l))
    by (unfold shr_nonneg; now rewrite shr_record_of_loc_m).
  destruct (fexp prec emax (Zdigits2 m + e) - e)%Z; cbn [fst]; auto.
  apply iter_pos_invariant; [apply shr_1_nonneg | exact H0].
Qed.

Lemma round_nearest_even_nonneg (m : Z) (l : location) :
  (0 <= m)%Z -> (0 <= round_nearest_even m l)%Z.
Proof.
  intros Hm. destruct l as [ | [ | | ] ]; cbn; try lia.
  destruct (Z.even m); lia.
Qed.

(** Rounding a mantissa that is not below zero gives a zero, a finite value
    or an infinity of the sign asked for, and never NaN. *)
Lemma binary_round_aux_sign (s : bool) (m e : Z) (l : location) :
  (0 <= m)%Z ->
  match binary_round_aux prec emax s m e l with
  | S754_zero s' | S754_infinity s' | S754_finite s' _ _ => s' = s
  | S754_nan => False
  end.
Proof.
  intros Hm. unfold binary_round_aux.
  pose proof (shr_fexp_nonneg m e l Hm) as H1.
  destruct (shr_fexp prec emax m e l) as [r1 e1]. cbn [fst] in H1.
  pose proof (shr_fexp_nonneg
                (round_nearest_even (shr_m r1) (loc_of_shr_record r1)) e1
                loc_Exact (round_nearest_even_nonneg _ _ H1)) as H2.
  destruct (shr_fexp prec emax
              (round_nearest_even (shr_m r1) (loc_of_shr_record r1)) e1
              loc_Exact) as [r2 e2].
  cbn [fst] in H2. unfold shr_nonneg in H2.
  destruct (shr_m r2) as [ | q | q ]; [reflexivity | | lia].
  now destruct (e2 <=? emax - prec)%Z.
Qed.

Lemma binary_round_aux_nn (m e : Z) (l : location) :
  (0 <= m)%Z -> SFnn (binary_round_aux prec emax false m e l).
Proof.
  intros Hm. pose proof (binary_round_aux_sign false m e l Hm) as H.
  now destruct (binary_round_aux prec emax false m e l).
Qed.

Lemma binary_round_nn (m : positive) (e : Z) :
  SFnn (binary_round prec emax false m e).
Proof.
  unfold binary_round.
  destruct (shl_align m e (fexp prec emax (Z.pos (digits2_pos m) + e)))
    as [mz ez].
  apply binary_round_aux_nn. lia.
Qed.

Lemma binary_normalize_nn (m e : Z) :
  (0 <= m)%Z -> SFnn (binary_normalize prec emax m e false).
Proof.
  intros Hm. destruct m as [ | q | q ]; cbn; [exact I | | lia].
  apply binary_round_nn.
Qed.

Lemma SFmul_nn (x y : spec_float) :
  SFnn x -> SFnn y -> SFnn (SF64mul x y) \/ SF64mul x y = S754_nan.
Proof.
  destruct x as [sx | sx | | sx mx ex], y as [sy | sy | | sy my ey];
    cbn; try tauto; intros Hx Hy; subst; auto.
  left. apply binary_round_aux_nn. lia.
Qed.

Lemma SFdiv_core_nonneg (m1 : positive) (e1 : Z) (m2 : positive) (e2 : Z) :
  (0 <= fst (fst (SFdiv_core_binary prec emax (Z.pos m1) e1 (Z.pos m2) e2)))%Z.
Proof.
  unfold SFdiv_core_binary.
  set (s := (e1 - e2 -
             Z.min (fexp prec emax (Zdigits2 (Z.pos m1) + e1
                                    - (Zdigits2 (Z.pos m2) + e2)))
                   (e1 - e2))%Z).
  set (m' := match s with
             | Z.pos _ => Z.shiftl (Z.pos m1) s
             | 0%Z => Z.pos m1
             | Z.neg _ => 0%Z
             end).
  assert (Hm' : (0 <= m')%Z).
  { unfold m'. destruct s; try lia. apply Z.shiftl_nonneg. lia. }
  pose proof (Z.div_pos m' (Z.pos m2) Hm' ltac:(lia)) as Hq.
  unfold Z.div in Hq.
  destruct (Z.div_eucl m' (Z.pos m2)) as [q r]. exact Hq.
Qed.

Lemma SFdiv_nn (x y : spec_float) :
  SFnn x -> SFpos y -> SFnn (SF64div x y) \/ SF64div x y = S754_nan.
Proof.
  destruct x as [sx | sx | | sx mx ex], y as [sy | sy | | sy my ey];
    cbn; try tauto; intros Hx Hy; subst; auto.
  left. pose proof (SFdiv_core_nonneg mx ex my ey) as Hq.
  destruct (SFdiv_core_binary prec emax (Z.pos mx) ex (Z.pos my) ey)
    as [[q e] l].
  apply binary_round_aux_nn. exact Hq.
Qed.

(** By a finite divisor or factor above zero there is no NaN. *)
Lemma SFmul_nn_finpos (x y : spec_float) :
  SFnn x -> SFfinpos y -> SFnn (SF64mul x y).
Proof.
  destruct x as [sx | sx | | sx mx ex], y as [sy | sy | | sy my ey];
    cbn; try tauto; intros Hx Hy; subst; auto.
  apply binary_round_aux_nn. lia.
Qed.

Lemma SFdiv_nn_finpos (x y : spec_float) :
  SFnn x -> SFfinpos y -> SFnn (SF64div x y).
Proof.
  destruct x as [sx | sx | | sx mx ex], y as [sy | sy | | sy my ey];
    cbn; try tauto; intros Hx Hy; subst; auto.
  pose proof (SFdiv_core_nonneg mx ex my ey) as Hq.
  destruct (SFdiv_core_binary prec emax (Z.pos mx) ex (Z.pos my) ey)
    as [[q e] l].
  apply binary_round_aux_nn. exact Hq.
Qed.

Lemma nn_leb (x : float) : nn x <-> (0 <=? x) = true.
Proof.
  unfold nn. rewrite leb_spec. change (Prim2SF 0) with (S754_zero false).
  unfold SFleb. destruct (Prim2SF x) as [s | s | | s m e]; cbn.
  - tauto.
  - destruct s; split; discriminate || reflexivity.
  - split; [tauto | discriminate].
  - destruct s; split; discriminate || reflexivity.
Qed.

Lemma ltb_nn (x : float) : (0 <? x) = true -> nn x.
Proof.
  intros H. apply nn_leb. now apply ltb_leb.
Qed.

Lemma nn_or_nan_ltb (x : float) :
  nn x \/ is_nan x = true -> (x <? 0) = false.
Proof.
  intros [H | H].
  - apply leb_not_ltb. now apply nn_leb.
  - rewrite is_nan_spec in H. rewrite ltb_spec, H. reflexivity.
Qed.

Lemma mul_nn (x y : float) :
  nn x -> nn y -> nn (x * y) \/ is_nan (x * y) = true.
Proof.
  intros Hx Hy. unfold nn. rewrite is_nan_spec, mul_spec.
  now apply SFmul_nn.
Qed.

Lemma nn_nonzero_pos (x : float) :
  nn x -> (x =? 0) = false -> SFpos (Prim2SF x).
Proof.
  unfold nn. rewrite eqb_spec. change (Prim2SF 0) with (S754_zero false).
  unfold SFeqb. destruct (Prim2SF x) as [s | s | | s m e]; cbn; auto.
  discriminate.
Qed.

Lemma ltb_pos (x : float) : (0 <? x) = true -> SFpos (Prim2SF x).
Proof.
  intros H. apply nn_nonzero_pos; [now apply ltb_nn | now apply ltb_not_eqb].
Qed.

Lemma div_nn (x y : float) :
  nn x -> SFpos (Prim2SF y) -> nn (x / y) \/ is_nan (x / y) = true.
Proof.
  intros Hx Hy. unfold nn. rewrite is_nan_spec, div_spec.
  now apply SFdiv_nn.
Qed.

Lemma mul_nn_finpos (x y : float) :
  nn x -> SFfinpos (Prim2SF y) -> nn (x * y).
Proof.
  intros Hx Hy. unfold nn. rewrite mul_spec. now apply SFmul_nn_finpos.
Qed.

Lemma mul_finpos_nn (x y : float) :
  SFfinpos (Prim2SF x) -> nn y -> nn (x * y) \/ is_nan (x * y) = true.
Proof.
  intros Hx Hy. apply mul_nn; [| exact Hy].
  unfold nn. now destruct (Prim2SF x).
Qed.

Lemma div_nn_finpos (x y : float) :
  nn x -> SFfinpos (Prim2SF y) -> nn (x / y).
Proof.
  intros Hx Hy. unfold nn. rewrite div_spec. now apply SFdiv_nn_finpos.
Qed.

(** A NaN factor, dividend or divisor gives NaN. *)
Lemma mul_nan_l (x y : float) : is_nan x = true -> is_nan (x * y) = true.
Proof.
  rewrite !is_nan_spec, mul_spec. now intros ->.
Qed.

Lemma mul_nan_r (x y : float) : is_nan y = true -> is_nan (x * y) = true.
Proof.
  rewrite !is_nan_spec, mul_spec. intros ->. now destruct (Prim2SF x).
Qed.

Lemma div_nan_l (x y : float) : is_nan x = true -> is_nan (x / y) = true.
Proof.
  rewrite !is_nan_spec, div_spec. now intros ->.
Qed.

Lemma div_nan_r (x y : float) : is_nan y = true -> is_nan (x / y) = true.
Proof.
  rewrite !is_nan_spec, div_spec. intros ->. now destruct (Prim2SF x).
Qed.

Lemma SFldexp_nn (x : spec_float) (e : Z) :
  SFnn x -> SFnn (SFldexp prec emax x e).
Proof.
  destruct x as [s | s | | s m ex]; cbn; auto.
  intros ->. apply binary_round_nn.
Qed.

Lemma SF2Prim_nn (y : spec_float) : SFnn y -> nn (SF2Prim y).
Proof.
  unfold nn. destruct y as [s | s | | s m e]; cbn [SFnn SF2Prim].
  - intros _. now destruct s.
  - now intros ->.
  - tauto.
  - intros ->. rewrite Z_ldexp_spec, of_uint63_spec.
    apply SFldexp_nn, binary_normalize_nn.
    apply to_Z_bounded.
Qed.

Lemma is_infinity_spec (x : float) :
  is_infinity x = true <-> exists s, Prim2SF x = S754_infinity s.
Proof.
  unfold is_infinity. rewrite eqb_spec, abs_spec.
  change (Prim2SF infinity) with (S754_infinity false).
  unfold SFeqb. destruct (Prim2SF x) as [s | s | | s m e]; cbn.
  - split; [discriminate | intros [s' Hs']; discriminate].
  - split; [intros _; now exists s | reflexivity].
  - split; [discriminate | intros [s' Hs']; discriminate].
  - split; [discriminate | intros [s' Hs']; discriminate].
Qed.

(** A power of a base above zero, when it does not raise, is not below
    zero and is not NaN. *)
Lemma pow_nn (x y : float) (n : positive) :
  (0 <? x) = true -> pow x n = Ok y -> nn y.
Proof.
  intros Hx. unfold pow.
  assert (Hnan : is_nan x = false).
  { destruct (is_nan x) eqn:Hn; [| reflexivity].
    rewrite (nan_not_ltb 0 x Hn) in Hx. discriminate. }
  rewrite Hnan, (ltb_not_eqb _ _ Hx), (ltb_asym _ _ Hx). cbn [andb].
  destruct (is_infinity x) eqn:Hinf.
  { intros [= <-]. destruct (is_odd n); [now apply ltb_nn |].
    unfold nn. rewrite abs_spec.
    apply is_infinity_spec in Hinf as [s Hs]. now rewrite Hs. }
  destruct (x =? 1); [intros [= <-]; by_computation |].
  destruct (is_infinity (libm_pow x n)); [discriminate |].
  intros [= <-]. unfold libm_pow.
  pose proof (ltb_pos x Hx) as Hp.
  destruct (Prim2SF x) as [s | s | | s m e] eqn:Hsf; cbn in Hp; try tauto.
  - exfalso. apply not_true_iff_false in Hinf. apply Hinf.
    apply is_infinity_spec. now exists s.
  - subst s. apply SF2Prim_nn, binary_normalize_nn. lia.
Qed.

End Signs.

(** ** When the evaluator returns, and what *)

Section Evaluator.

Lemma div_ok (x y : float) : (y =? 0) = false -> div x y = Ok (x / y).
Proof.
  intros Hy. unfold div. now rewrite Hy.
Qed.

Lemma div_zero (x y : float) :
  (y =? 0) = true -> div x y = Raise ZeroDivisionError.
Proof.
  intros Hy. unfold div. now rewrite Hy.
Qed.

Variables L w b h : float.
Variable mat : Material.

(** With the three powers in range and the two divisors [I] and
    [384 E I] different from zero nothing raises, and the ten fields are
    those of [beam_fields]. *)
Lemma beam_udl_calculations_ok (L2 h3 L4 : float) :
  pow L 2 = Ok L2 -> pow h 3 = Ok h3 -> pow L 4 = Ok L4 ->
  (I_of b h3 =? 0) = false -> (K_of b h3 mat =? 0) = false ->
  beam_udl_calculations L w b h mat = Ok (beam_fields L w b h L2 h3 L4 mat).
Proof.
  intros HL2 Hh3 HL4 HI HK.
  unfold beam_udl_calculations.
  rewrite HL2. cbn [bind].
  rewrite (div_ok _ 8.0 eq_refl). cbn [bind].
  rewrite Hh3. cbn [bind].
  rewrite (div_ok _ 12.0 eq_refl). cbn [bind].
  rewrite (div_ok _ 2.0 eq_refl). cbn [bind].
  fold (I_of b h3). rewrite (div_ok _ _ HI). cbn [bind].
  rewrite (div_ok _ 1e6 eq_refl). cbn [bind].
  fold (sigma_MPa_of w h b L2 h3).
  assert (Hfos :
    (if 0 <? sigma_MPa_of w h b L2 h3
     then div (yield_strength mat) (sigma_MPa_of w h b L2 h3)
     else Ok infinity)
    = Ok (if 0 <? sigma_MPa_of w h b L2 h3
          then yield_strength mat / sigma_MPa_of w h b L2 h3
          else infinity)).
  { destruct (0 <? sigma_MPa_of w h b L2 h3) eqn:Hs; [| reflexivity].
    apply div_ok. now apply ltb_not_eqb. }
  rewrite Hfos. cbn [bind].
  rewrite HL4. cbn [bind].
  fold (K_of b h3 mat). rewrite (div_ok _ _ HK). cbn [bind].
  rewrite (div_ok _ 360.0 eq_refl). cbn [bind].
  reflexivity.
Qed.

(** Conversely a result can only come about that way. *)
Lemma beam_udl_calculations_inv (r : BeamResult) :
  beam_udl_calculations L w b h mat = Ok r ->
  exists L2 h3 L4 : float,
    pow L 2 = Ok L2 /\ pow h 3 = Ok h3 /\ pow L 4 = Ok L4 /\
    (I_of b h3 =? 0) = false /\ (K_of b h3 mat =? 0) = false /\
    r = beam_fields L w b h L2 h3 L4 mat.
Proof.
  intros Hr.
  destruct (pow L 2) as [L2 | e] eqn:HL2;
    [| unfold beam_udl_calculations in Hr; rewrite HL2 in Hr; discriminate].
  destruct (pow h 3) as [h3 | e] eqn:Hh3;
    [| unfold beam_udl_calculations in Hr; rewrite HL2 in Hr; cbn [bind] in Hr;
       rewrite (div_ok _ 8.0 eq_refl) in Hr; cbn [bind] in Hr;
       rewrite Hh3 in Hr; discriminate].
  destruct (I_of b h3 =? 0) eqn:HI.
  { unfold beam_udl_calculations in Hr. rewrite HL2 in Hr. cbn [bind] in Hr.
    rewrite (div_ok _ 8.0 eq_refl) in Hr. cbn [bind] in Hr.
    rewrite Hh3 in Hr. cbn [bind] in Hr.
    rewrite (div_ok _ 12.0 eq_refl) in Hr. cbn [bind] in Hr.
    rewrite (div_ok _ 2.0 eq_refl) in Hr. cbn [bind] in Hr.
    fold (I_of b h3) in Hr. rewrite (div_zero _ _ HI) in Hr. discriminate. }
  assert (Hpre :
    beam_udl_calculations L w b h mat =
    (L4 <- pow L 4 ;;
     delta <- div (5 * (w * 1000.0) * L4) (K_of b h3 mat) ;;
     Ok (beam_fields L w b h L2 h3 L4 mat))).
  { unfold beam_udl_calculations.
    rewrite HL2. cbn [bind].
    rewrite (div_ok _ 8.0 eq_refl). cbn [bind].
    rewrite Hh3. cbn [bind].
    rewrite (div_ok _ 12.0 eq_refl). cbn [bind].
    rewrite (div_ok _ 2.0 eq_refl). cbn [bind].
    fold (I_of b h3). rewrite (div_ok _ _ HI). cbn [bind].
    rewrite (div_ok _ 1e6 eq_refl). cbn [bind].
    fold (sigma_MPa_of w h b L2 h3).
    destruct (0 <? sigma_MPa_of w h b L2 h3) eqn:Hs.
    - rewrite (div_ok (yield_strength mat) _ (ltb_not_eqb _ _ Hs)).
      cbn [bind]. destruct (pow L 4) as [L4 | e]; [| reflexivity].
      cbn [bind]. fold (K_of b h3 mat).
      destruct (div (5 * (w * 1000.0) * L4) (K_of b h3 mat)) eqn:Hd;
        [| reflexivity].
      cbn [bind]. unfold div in Hd.
      destruct (K_of b h3 mat =? 0); [discriminate |]. injection Hd as <-.
      rewrite (div_ok _ 360.0 eq_refl). cbn [bind].
      unfold beam_fields. now rewrite Hs.
    - cbn [bind]. destruct (pow L 4) as [L4 | e]; [| reflexivity].
      cbn [bind]. fold (K_of b h3 mat).
      destruct (div (5 * (w * 1000.0) * L4) (K_of b h3 mat)) eqn:Hd;
        [| reflexivity].
      cbn [bind]. unfold div in Hd.
      destruct (K_of b h3 mat =? 0); [discriminate |]. injection Hd as <-.
      rewrite (div_ok _ 360.0 eq_refl). cbn [bind].
      unfold beam_fields. now rewrite Hs. }
  rewrite Hpre in Hr.
  destruct (pow L 4) as [L4 | e] eqn:HL4; [| discriminate].
  cbn [bind] in Hr.
  destruct (K_of b h3 mat =? 0) eqn:HK.
  { rewrite (div_zero _ _ HK) in Hr. discriminate. }
  rewrite (div_ok _ _ HK) in Hr. cbn [bind] in Hr. injection Hr as <-.
  exists L2, h3, L4. repeat split; assumption || reflexivity.
Qed.

End Evaluator.

(** ** The recommendation rule *)

Section Selector.

Lemma select_winner_cases (s a : BeamResult) :
  select_winner s a =
  match PASS s, PASS a with
  | true, false => (STEEL, ALU_FAILS_SERVICEABILITY)
  | false, true => (ALUMINIUM, STEEL_FAILS_SERVICEABILITY)
  | _, _ => if Cost_RM s <? Cost_RM a
            then (STEEL, COST_EFFECTIVE)
            else (ALUMINIUM, LIGHTER_OR_WEIGHT_PRIORITY)
  end.
Proof.
  unfold select_winner. now destruct (PASS s), (PASS a).
Qed.

End Selector.

(** C1.  The recommendation rule: steel passing alone wins with
    ALU_FAILS_SERVICEABILITY; aluminium passing alone wins with
    STEEL_FAILS_SERVICEABILITY; when both pass or both fail, steel wins with
    COST_EFFECTIVE exactly when its cost is strictly below aluminium's, and
    aluminium wins with LIGHTER_OR_WEIGHT_PRIORITY otherwise (equal costs, an
    infinite or a NaN cost included).  The outcome depends on the two pass
    flags and the two costs only: no other field (the mass in particular) is
    compared. *)
Theorem select_winner_decision_order (s a : BeamResult) :
  (PASS s = true -> PASS a = false ->
   select_winner s a = (STEEL, ALU_FAILS_SERVICEABILITY)) /\
  (PASS a = true -> PASS s = false ->
   select_winner s a = (ALUMINIUM, STEEL_FAILS_SERVICEABILITY)) /\
  (PASS s = PASS a -> (Cost_RM s <? Cost_RM a) = true ->
   select_winner s a = (STEEL, COST_EFFECTIVE)) /\
  (PASS s = PASS a -> (Cost_RM s <? Cost_RM a) = false ->
   select_winner s a = (ALUMINIUM, LIGHTER_OR_WEIGHT_PRIORITY)) /\
  (forall s' a' : BeamResult,
     PASS s' = PASS s -> PASS a' = PASS a ->
     Cost_RM s' = Cost_RM s -> Cost_RM a' = Cost_RM a ->
     select_winner s' a' = select_winner s a).
Proof.
  rewrite select_winner_cases.
  repeat split.
  - now intros -> ->.
  - now intros -> ->.
  - intros Hp Hc. rewrite Hp, Hc. now destruct (PASS a).
  - intros Hp Hc. rewrite Hp, Hc. now destruct (PASS a).
  - intros s' a' Hs Ha Hcs Hca.
    rewrite select_winner_cases, Hs, Ha, Hcs, Hca. reflexivity.
Qed.

Lemma select_winner_decision_order_witness :
  select_winner res_pass_100 res_fail_100 = (STEEL, ALU_FAILS_SERVICEABILITY) /\
  select_winner res_fail_100 res_pass_100 = (ALUMINIUM, STEEL_FAILS_SERVICEABILITY) /\
  select_winner res_pass_100 res_pass_200 = (STEEL, COST_EFFECTIVE) /\
  select_winner res_pass_200 res_pass_100 = (ALUMINIUM, LIGHTER_OR_WEIGHT_PRIORITY).
Proof.
  split; [| split; [| split]].
  - apply (proj1 (select_winner_decision_order res_pass_100 res_fail_100));
      reflexivity.
  - apply (proj1 (proj2 (select_winner_decision_order res_fail_100 res_pass_100)));
      reflexivity.
  - apply (proj1 (proj2 (proj2
             (select_winner_decision_order res_pass_100 res_pass_200))));
      reflexivity.
  - apply (proj1 (proj2 (proj2 (proj2
             (select_winner_decision_order res_pass_200 res_pass_100)))));
      reflexivity.
Defined.

(** The label LIGHTER_OR_WEIGHT_PRIORITY is given on the costs alone: here
    the result in the aluminium slot is the heavier one. *)
Example select_winner_ignores_mass :
  (Mass_kg res_pass_200 <? Mass_kg res_pass_100) = true /\
  select_winner res_pass_200 res_pass_100
  = (ALUMINIUM, LIGHTER_OR_WEIGHT_PRIORITY).
Proof. split; reflexivity. Qed.

(** C7, as stated, fails: two results of equal cost that both pass.  In
    either order the rule answers aluminium, so exchanging the slots does not
    exchange the winner. *)
Lemma select_winner_not_mirrored :
  fst (select_winner res_pass_100 res_pass_100b) = ALUMINIUM /\
  fst (select_winner res_pass_100b res_pass_100) = ALUMINIUM /\
  fst (select_winner res_pass_100b res_pass_100)
    <> mirror_winner (fst (select_winner res_pass_100 res_pass_100b)) /\
  ~ (forall s a : BeamResult,
       select_winner a s = mirror (select_winner s a)).
Proof.
  split; [reflexivity |].
  split; [reflexivity |].
  split; [discriminate |].
  intros H. specialize (H res_pass_100 res_pass_100b). discriminate H.
Qed.

(** C7, amended.  Exchanging the steel and the aluminium slot mirrors the
    recommendation (winner and reason) whenever the two results differ in
    their pass flag or in their cost, one cost being strictly below the
    other. *)
Theorem select_winner_mirror (s a : BeamResult) :
  PASS s <> PASS a \/
  (Cost_RM s <? Cost_RM a) = true \/ (Cost_RM a <? Cost_RM s) = true ->
  select_winner a s = mirror (select_winner s a).
Proof.
  intros Hd. rewrite !select_winner_cases.
  destruct (PASS s) eqn:Hs, (PASS a) eqn:Ha; try reflexivity.
  all: destruct Hd as [Hd | [Hd | Hd]]; [now elim Hd | |].
  all: rewrite Hd, (ltb_asym _ _ Hd); reflexivity.
Qed.

Lemma select_winner_mirror_witness :
  select_winner res_pass_200 res_pass_100
  = mirror (select_winner res_pass_100 res_pass_200).
Proof.
  apply (select_winner_mirror res_pass_100 res_pass_200).
  right. left. reflexivity.
Defined.

(** ** The two scenarios of the default form values *)

(** C2, as stated, fails: on L=6, w=12, b=0.10, h=0.20 the steel beam
    passes; its second moment of area is far from 6.6667e-4 and its
    deflection far from 30.375 mm. *)
Lemma scenario_A_steel_not_as_claimed :
  exists r : BeamResult,
    beam_udl_calculations L0 w0 b0 h0 steel = Ok r /\
    PASS r <> false /\
    ~ approx 1e-4 (I_m4 r) 6.6667e-4 /\
    ~ approx 1 (Deflection_mm r) 30.375.
Proof.
  eexists. split; [vm_compute; reflexivity |].
  repeat split; refute_by_computation.
Qed.

(** C2, amended.  On L=6, w=12, b=0.10, h=0.20 with the steel record the
    evaluator returns Mmax = 54000 N.m, I = 6.6667e-5 m4 to five figures,
    Stress = 81.0 MPa, FOS = 3.086, Deflection = 15.1875 mm and
    Allowable = 16.667 mm up to rounding, and passes = true.  The binary64
    values themselves are those Python prints. *)
Theorem scenario_A_steel :
  exists r : BeamResult,
    beam_udl_calculations L0 w0 b0 h0 steel = Ok r /\
    Mmax_Nm r = 54000 /\
    approx 5e-10 (I_m4 r) 6.6667e-5 /\
    approx 1e-9 (Stress_MPa r) 81.0 /\
    approx 0.0005 (FOS r) 3.086 /\
    approx 1e-9 (Deflection_mm r) 15.1875 /\
    approx 0.0005 (Allowable_mm r) 16.667 /\
    PASS r = true /\
    I_m4 r = 6.6666666666666683e-05 /\
    Stress_MPa r = 80.999999999999986 /\
    FOS r = 3.0864197530864201 /\
    Deflection_mm r = 15.187499999999998 /\
    Allowable_mm r = 16.666666666666668.
Proof.
  eexists. split; [vm_compute; reflexivity |].
  repeat split; by_computation.
Qed.

(** C3, as stated, fails: on the same input the aluminium deflection is far
    from 88.04 mm, steel does not fail, and the recommendation is not the
    tie-break's COST_EFFECTIVE. *)
Lemma scenario_B_not_as_claimed :
  exists rs ra : BeamResult,
    beam_udl_calculations L0 w0 b0 h0 steel = Ok rs /\
    beam_udl_calculations L0 w0 b0 h0 aluminum = Ok ra /\
    ~ approx 1 (Deflection_mm ra) 88.04 /\
    PASS rs <> false /\
    select_winner rs ra <> (STEEL, COST_EFFECTIVE) /\
    application_1_beam_udl L0 w0 b0 h0 <> Ok (STEEL, COST_EFFECTIVE).
Proof.
  do 2 eexists.
  split; [vm_compute; reflexivity |].
  split; [vm_compute; reflexivity |].
  repeat split; refute_by_computation.
Qed.

(** C3, amended.  On L=6, w=12, b=0.10, h=0.20 with the aluminium record
    the evaluator returns Stress = 81.0 MPa up to rounding (the very float of
    steel's stress), FOS = 275/81 = 3.395, Deflection = 200/69 times steel's
    = 44.02 mm up to rounding, and passes = false; steel passes; steel has
    mass 942 kg and cost 2826 RM, aluminium mass 324 kg and cost 3888 RM, up
    to rounding; and the recommendation is Steel with
    ALU_FAILS_SERVICEABILITY. *)
Theorem scenario_B :
  exists rs ra : BeamResult,
    beam_udl_calculations L0 w0 b0 h0 steel = Ok rs /\
    beam_udl_calculations L0 w0 b0 h0 aluminum = Ok ra /\
    approx 1e-9 (Stress_MPa ra) 81.0 /\ Stress_MPa ra = Stress_MPa rs /\
    approx 1e-9 (FOS ra) (275 / 81.0) /\ approx 0.0005 (FOS ra) 3.395 /\
    approx 1e-9 (Deflection_mm ra) (Deflection_mm rs * (200 / 69)) /\
    approx 0.005 (Deflection_mm ra) 44.02 /\
    PASS ra = false /\ PASS rs = true /\
    approx 1e-9 (Mass_kg rs) 942 /\ approx 1e-9 (Cost_RM rs) 2826 /\
    approx 1e-9 (Mass_kg ra) 324 /\ approx 1e-9 (Cost_RM ra) 3888 /\
    select_winner rs ra = (STEEL, ALU_FAILS_SERVICEABILITY) /\
    application_1_beam_udl L0 w0 b0 h0 = Ok (STEEL, ALU_FAILS_SERVICEABILITY) /\
    Stress_MPa ra = 80.999999999999986 /\
    FOS ra = 3.3950617283950622 /\
    Deflection_mm ra = 44.021739130434774 /\
    Mass_kg rs = 942.00000000000023 /\ Cost_RM rs = 2826.0000000000009 /\
    Mass_kg ra = 324.00000000000006 /\ Cost_RM ra = 3888.0000000000009.
Proof.
  do 2 eexists.
  split; [vm_compute; reflexivity |].
  split; [vm_compute; reflexivity |].
  repeat split; by_computation.
Qed.

(** ** General properties of the evaluator *)

(** C4, as stated, fails: when the section is so large that [I] overflows,
    the stress is NaN, which is not less than or equal to zero, and yet the
    factor of safety is infinite and not yield_strength / stress. *)
Lemma fos_nan_stress :
  exists r : BeamResult,
    beam_udl_calculations 1e70 1e100 1e10 1e100 steel = Ok r /\
    (Stress_MPa r <=? 0) = false /\
    is_nan (Stress_MPa r) = true /\
    FOS r = infinity /\
    FOS r <> yield_strength steel / Stress_MPa r.
Proof.
  eexists. split; [vm_compute; reflexivity |].
  repeat split.
  intros H. apply (f_equal is_nan) in H. vm_compute in H. discriminate H.
Qed.

(** C4, amended.  Whenever the evaluator returns, FOS is
    yield_strength / stress exactly when the stress is greater than zero, and
    is infinite in every other case: a stress less than or equal to zero,
    or a NaN stress.  Computing FOS never raises: the evaluator returns
    whenever the three powers are in range and the two divisors [I] and
    [384 E I] are not zero, a zero stress included. *)
Theorem fos_spec (L w b h : float) (mat : Material) :
  (forall r : BeamResult,
     beam_udl_calculations L w b h mat = Ok r ->
     ((0 <? Stress_MPa r) = true ->
      FOS r = yield_strength mat / Stress_MPa r) /\
     ((0 <? Stress_MPa r) = false -> FOS r = infinity) /\
     ((Stress_MPa r <=? 0) = true -> FOS r = infinity) /\
     (is_nan (Stress_MPa r) = true -> FOS r = infinity)) /\
  (forall L2 h3 L4 : float,
     pow L 2 = Ok L2 -> pow h 3 = Ok h3 -> pow L 4 = Ok L4 ->
     (I_of b h3 =? 0) = false -> (K_of b h3 mat =? 0) = false ->
     exists r : BeamResult, beam_udl_calculations L w b h mat = Ok r).
Proof.
  split.
  - intros r Hr.
    apply beam_udl_calculations_inv in Hr
      as (L2 & h3 & L4 & _ & _ & _ & _ & _ & ->).
    cbn [Stress_MPa FOS beam_fields].
    set (s := sigma_MPa_of w h b L2 h3).
    assert (Hneg : (0 <? s) = false -> (if 0 <? s
                     then yield_strength mat / s else infinity) = infinity)
      by (now intros ->).
    split; [now intros -> |].
    split; [exact Hneg |].
    split; intros Hs; apply Hneg.
    + now apply leb_not_ltb.
    + now apply nan_not_ltb.
  - intros L2 h3 L4 HL2 Hh3 HL4 HI HK. eexists.
    now apply (beam_udl_calculations_ok L w b h mat L2 h3 L4).
Qed.

Lemma fos_spec_witness :
  (exists r : BeamResult,
     beam_udl_calculations L0 0 b0 h0 steel = Ok r /\ FOS r = infinity) /\
  (exists r : BeamResult,
     beam_udl_calculations L0 w0 b0 h0 steel = Ok r /\
     FOS r = yield_strength steel / Stress_MPa r).
Proof.
  split.
  - destruct (fos_spec L0 0 b0 h0 steel) as [Hval Hret].
    destruct (Hret 36 0.0080000000000000019 1296) as [r Hr];
      try reflexivity.
    exists r. split; [exact Hr |].
    apply (proj1 (proj2 (proj2 (Hval r Hr)))).
    vm_compute in Hr. injection Hr as <-. reflexivity.
  - destruct (fos_spec L0 w0 b0 h0 steel) as [Hval Hret].
    destruct (Hret 36 0.0080000000000000019 1296) as [r Hr];
      try reflexivity.
    exists r. split; [exact Hr |].
    apply (proj1 (Hval r Hr)).
    vm_compute in Hr. injection Hr as <-. reflexivity.
Defined.




(** ** Values that are not below zero, or NaN *)

Section NotBelowZero.

Lemma nn_nnn (x : float) : nn x -> nnn x.
Proof. now left. Qed.

Lemma mul_nnn (x y : float) : nnn x -> nnn y -> nnn (x * y).
Proof.
  intros [Hx | Hx] [Hy | Hy].
  - now apply mul_nn.
  - right. now apply mul_nan_r.
  - right. now apply mul_nan_l.
  - right. now apply mul_nan_l.
Qed.

Lemma div_nnn (x y : float) :
  nnn x -> nnn y -> (y =? 0) = false -> nnn (x / y).
Proof.
  intros [Hx | Hx] [Hy | Hy] H0.
  - apply div_nn; [exact Hx | now apply nn_nonzero_pos].
  - right. now apply div_nan_r.
  - right. now apply div_nan_l.
  - right. now apply div_nan_l.
Qed.

Lemma finpos_nn (x : float) : SFfinpos (Prim2SF x) -> nn x.
Proof.
  unfold nn. now destruct (Prim2SF x).
Qed.

Lemma catalog_stiffness_finpos (mat : Material) :
  In mat [steel; aluminum] -> SFfinpos (Prim2SF (384 * (E mat * 1e9))).
Proof.
  intros [<- | [<- | []]]; by_computation.
Qed.

Variables L w b h : float.
Variable mat : Material.
Hypothesis Hvalid : valid_input L w b h.
Hypothesis Hmat : In mat [steel; aluminum].

Lemma delta_allow_nn : nn (delta_allow_of L).
Proof.
  destruct Hvalid as (HL & _).
  unfold delta_allow_of.
  apply mul_nn_finpos; [| by_computation].
  apply div_nn_finpos; [now apply ltb_nn | by_computation].
Qed.

Lemma delta_mm_nnn (h3 L4 : float) :
  pow h 3 = Ok h3 -> pow L 4 = Ok L4 ->
  (K_of b h3 mat =? 0) = false ->
  nnn (delta_mm_of w b h3 L4 mat).
Proof.
  destruct Hvalid as (HL & Hw & Hb & Hh).
  intros Hh3 HL4 HK.
  pose proof (pow_nn h h3 3 Hh Hh3) as Hnh3.
  pose proof (pow_nn L L4 4 HL HL4) as HnL4.
  assert (HI : nnn (I_of b h3)).
  { unfold I_of.
    destruct (mul_nn b h3 (ltb_nn b Hb) Hnh3) as [Hp | Hp].
    - left. apply div_nn_finpos; [exact Hp | by_computation].
    - right. now apply div_nan_l. }
  assert (HKn : nnn (K_of b h3 mat)).
  { unfold K_of. apply mul_nnn; [| exact HI].
    left. apply finpos_nn, catalog_stiffness_finpos, Hmat. }
  unfold delta_mm_of.
  apply mul_nnn; [| left; by_computation].
  apply div_nnn; [| exact HKn | exact HK].
  apply mul_nnn; [| now left].
  apply mul_nnn; [left; by_computation |].
  left. apply mul_nn_finpos; [now apply nn_leb | by_computation].
Qed.

End NotBelowZero.




(** At that load the steel beam of unit span and section deflects exactly
    L/360, and passes. *)
Example boundary_is_a_pass :
  exists r : BeamResult,
    beam_udl_calculations 1 3555555.555555556 1 1 steel = Ok r /\
    (Deflection_mm r =? Allowable_mm r) = true /\ PASS r = true.
Proof.
  eexists. split; [vm_compute; reflexivity |]. split; reflexivity.
Qed.

(** ** Finite values, zeros, and the powers *)

Section Finite.

Lemma is_finite_spec (x : float) : is_finite x = true <-> SFfin (Prim2SF x).
Proof.
  unfold is_finite. rewrite negb_true_iff, orb_false_iff.
  rewrite <- !not_true_iff_false, is_nan_spec, is_infinity_spec.
  destruct (Prim2SF x) as [s | s | | s m e]; cbn.
  - split; [tauto |]. intros _.
    split; [discriminate | intros [s' Hs']; discriminate].
  - split; [| tauto]. intros [_ H]. apply H. now exists s.
  - split; [| tauto]. intros [H _]. now apply H.
  - split; [tauto |]. intros _.
    split; [discriminate | intros [s' Hs']; discriminate].
Qed.

Lemma eqb_zero_spec (x : float) :
  (x =? 0) = true <-> exists s, Prim2SF x = S754_zero s.
Proof.
  rewrite eqb_spec. change (Prim2SF 0) with (S754_zero false).
  unfold SFeqb. destruct (Prim2SF x) as [s | s | | s m e]; cbn.
  - split; [intros _; now exists s | reflexivity].
  - destruct s; (split; [discriminate | intros [s' Hs']; discriminate]).
  - split; [discriminate | intros [s' Hs']; discriminate].
  - destruct s; (split; [discriminate | intros [s' Hs']; discriminate]).
Qed.

Lemma mul_zero_l (x y : float) :
  (x =? 0) = true -> is_finite y = true -> (x * y =? 0) = true.
Proof.
  rewrite is_finite_spec, !eqb_zero_spec, mul_spec.
  intros [s ->]. destruct (Prim2SF y) as [sy | sy | | sy my ey]; cbn;
    try tauto; intros _; eexists; reflexivity.
Qed.

Lemma mul_zero_r (x y : float) :
  is_finite x = true -> (y =? 0) = true -> (x * y =? 0) = true.
Proof.
  rewrite is_finite_spec, !eqb_zero_spec, mul_spec.
  intros Hx [s ->]. destruct (Prim2SF x) as [sx | sx | | sx mx ex]; cbn in *;
    try tauto; eexists; reflexivity.
Qed.

Lemma div_zero_finpos (x y : float) :
  (x =? 0) = true -> SFfinpos (Prim2SF y) -> (x / y =? 0) = true.
Proof.
  rewrite !eqb_zero_spec, div_spec.
  intros [s ->]. destruct (Prim2SF y) as [sy | sy | | sy my ey]; cbn;
    try tauto; intros _; eexists; reflexivity.
Qed.

Lemma nn_not_nan (x : float) : nn x -> is_nan x = false.
Proof.
  unfold nn. intros H. apply not_true_iff_false. rewrite is_nan_spec.
  intros Hn. now rewrite Hn in H.
Qed.

Lemma opp_finite (x : float) : is_finite x = true -> is_finite (- x) = true.
Proof.
  rewrite !is_finite_spec, opp_spec. now destruct (Prim2SF x).
Qed.

(** A finite, non-zero value that is not below zero has a mantissa and an
    exponent, and the sign of a value above zero. *)
Lemma finite_abs_shape (x : float) :
  is_finite x = true -> (x =? 0) = false ->
  exists m e,
    Prim2SF (if x <? 0 then - x else x) = S754_finite false m e.
Proof.
  rewrite is_finite_spec. intros Hf H0.
  apply not_true_iff_false in H0. rewrite eqb_zero_spec in H0.
  rewrite ltb_spec. change (Prim2SF 0) with (S754_zero false).
  destruct (Prim2SF x) as [s | s | | s m e] eqn:Hx; cbn in Hf; try tauto.
  - exfalso. apply H0. now exists s.
  - destruct s; cbn.
    + rewrite opp_spec, Hx. now exists m, e.
    + rewrite Hx. now exists m, e.
Qed.

Lemma pow_finite (x y : float) (n : positive) :
  is_finite x = true -> pow x n = Ok y -> is_finite y = true.
Proof.
  intros Hx. unfold pow.
  pose proof Hx as Hx'. unfold is_finite in Hx'.
  rewrite negb_true_iff, orb_false_iff in Hx'. destruct Hx' as [Hn Hi].
  rewrite Hn, Hi.
  destruct (x =? 0) eqn:H0.
  { intros [= <-]. now destruct (is_odd n). }
  destruct (finite_abs_shape x Hx H0) as (m & e & Ha).
  destruct ((if x <? 0 then - x else x) =? 1).
  { intros [= <-]. now destruct ((x <? 0) && is_odd n). }
  set (ix := libm_pow (if x <? 0 then - x else x) n).
  assert (Hix : nn ix).
  { unfold ix, libm_pow. rewrite Ha.
    apply SF2Prim_nn, binary_normalize_nn. lia. }
  destruct (is_infinity ix) eqn:Hinf; [discriminate |].
  assert (Hfin : is_finite ix = true).
  { unfold is_finite. now rewrite (nn_not_nan ix Hix), Hinf. }
  intros [= <-].
  destruct ((x <? 0) && is_odd n); [now apply opp_finite | exact Hfin].
Qed.

(** The odd power of a zero is that zero. *)
Lemma pow_zero (x : float) :
  (x =? 0) = true -> pow x 3 = Ok x.
Proof.
  intros H0. unfold pow.
  assert (Hf : is_finite x = true).
  { apply is_finite_spec. apply eqb_zero_spec in H0 as [s ->]. exact I. }
  unfold is_finite in Hf. rewrite negb_true_iff, orb_false_iff in Hf.
  destruct Hf as [-> ->]. now rewrite H0.
Qed.

End Finite.

(** C6, as stated, fails: with L = -1 the evaluator returns a result (with a
    negative allowable deflection) and raises nothing; with b = 0 it raises,
    but the exception is Python's ZeroDivisionError. *)
Lemma invalid_geometry_not_reported :
  (exists r : BeamResult,
     beam_udl_calculations (-1) w0 b0 h0 steel = Ok r /\
     (Allowable_mm r <? 0) = true) /\
  beam_udl_calculations L0 w0 0 h0 steel = Raise ZeroDivisionError /\
  exn_name ZeroDivisionError <> "InvalidGeometry"%string /\
  ~ (forall (L w b h : float) (mat : Material),
       (L <=? 0) = true \/ (b <=? 0) = true \/ (h <=? 0) = true ->
       exists e : exn,
         beam_udl_calculations L w b h mat = Raise e /\
         exn_name e = "InvalidGeometry"%string).
Proof.
  split.
  { eexists. split; [vm_compute; reflexivity | reflexivity]. }
  split; [reflexivity |].
  split; [discriminate |].
  intros H.
  destruct (H (-1) w0 b0 h0 steel) as (e & He & _).
  - left. reflexivity.
  - vm_compute in He. discriminate He.
Qed.

(** C6, amended.  The evaluator validates nothing and knows no
    InvalidGeometry error: whatever it raises is ZeroDivisionError or
    OverflowError.  With a zero width (and a finite height) or a zero height
    (and a finite width), once L**2 and h**3 are in range, the division by
    [I] raises ZeroDivisionError.  A span or a side below zero is not
    rejected: the evaluator returns exactly when the three powers are in
    range and the two divisors [I] and [384 E I] are not zero. *)
Theorem no_geometry_validation (L w b h : float) (mat : Material) :
  (forall e : exn,
     beam_udl_calculations L w b h mat = Raise e ->
     exn_name e <> "InvalidGeometry"%string /\
     (e = ZeroDivisionError \/ e = OverflowError)) /\
  (forall L2 h3 : float,
     pow L 2 = Ok L2 -> pow h 3 = Ok h3 ->
     ((b =? 0) = true /\ is_finite h = true) \/
     ((h =? 0) = true /\ is_finite b = true) ->
     beam_udl_calculations L w b h mat = Raise ZeroDivisionError) /\
  ((exists r : BeamResult, beam_udl_calculations L w b h mat = Ok r) <->
   (exists L2 h3 L4 : float,
      pow L 2 = Ok L2 /\ pow h 3 = Ok h3 /\ pow L 4 = Ok L4 /\
      (I_of b h3 =? 0) = false /\ (K_of b h3 mat =? 0) = false)).
Proof.
  split; [| split].
  - intros e _. destruct e; (split; [discriminate | auto]).
  - intros L2 h3 HL2 Hh3 Hz.
    assert (HI : (I_of b h3 =? 0) = true).
    { unfold I_of. apply div_zero_finpos; [| by_computation].
      destruct Hz as [[Hb Hh] | [Hh Hb]].
      - apply mul_zero_l; [exact Hb |]. now apply (pow_finite h h3 3).
      - rewrite (pow_zero h Hh) in Hh3. injection Hh3 as <-.
        now apply mul_zero_r. }
    unfold beam_udl_calculations.
    rewrite HL2. cbn [bind].
    rewrite (div_ok _ 8.0 eq_refl). cbn [bind].
    rewrite Hh3. cbn [bind].
    rewrite (div_ok _ 12.0 eq_refl). cbn [bind].
    rewrite (div_ok _ 2.0 eq_refl). cbn [bind].
    fold (I_of b h3). now rewrite (div_zero _ _ HI).
  - split.
    + intros [r Hr].
      apply beam_udl_calculations_inv in Hr
        as (L2 & h3 & L4 & HL2 & Hh3 & HL4 & HI & HK & _).
      now exists L2, h3, L4.
    + intros (L2 & h3 & L4 & HL2 & Hh3 & HL4 & HI & HK). eexists.
      now apply (beam_udl_calculations_ok L w b h mat L2 h3 L4).
Qed.

Lemma no_geometry_validation_witness :
  beam_udl_calculations L0 w0 0 h0 aluminum = Raise ZeroDivisionError /\
  beam_udl_calculations L0 w0 b0 0 aluminum = Raise ZeroDivisionError /\
  exists r : BeamResult,
    beam_udl_calculations (-6) w0 (- b0) h0 aluminum = Ok r.
Proof.
  split; [| split].
  - apply (proj1 (proj2 (no_geometry_validation L0 w0 0 h0 aluminum))
             36 0.0080000000000000019); try reflexivity.
    left. split; reflexivity.
  - apply (proj1 (proj2 (no_geometry_validation L0 w0 b0 0 aluminum))
             36 0); try reflexivity.
    right. split; reflexivity.
  - apply (proj2 (proj2 (no_geometry_validation (-6) w0 (- b0) h0 aluminum))).
    exists 36, 0.0080000000000000019, 1296.
    repeat split; reflexivity.
Defined.

(** * Application 4 and the messages *)

(** Application 4 recommends aluminium for the coastal environment and for
    no other string; of the three options of the selectbox, the material
    recommended has the better corrosion rating of the table in the coastal
    case only. *)
Theorem application_4_corrosion_choice (env : string) :
  (application_4_corrosion env = ALUMINIUM
   <-> env = "Coastal / Corrosive"%string) /\
  (application_4_corrosion env = STEEL
   <-> env <> "Coastal / Corrosive"%string) /\
  (In env environments ->
   ((corrosion_rating (material_of (mirror_winner (application_4_corrosion env)))
     < corrosion_rating (material_of (application_4_corrosion env)))%Q
    <-> env = "Coastal / Corrosive"%string)).
Proof.
  unfold application_4_corrosion.
  destruct (String.eqb_spec env "Coastal / Corrosive") as [Heq | Hne].
  - split; [split; auto |].
    split; [split; [discriminate | intros Hn; contradiction] |].
    intros _. split; [auto | intros _; reflexivity].
  - split; [split; [discriminate | intros Hn; contradiction] |].
    split; [split; auto |].
    intros _. split; [intros Hlt; discriminate Hlt | intros Hn; contradiction].
Qed.

Lemma application_4_corrosion_choice_witness :
  (corrosion_rating (material_of (mirror_winner
                                    (application_4_corrosion "Coastal / Corrosive")))
   < corrosion_rating (material_of (application_4_corrosion "Coastal / Corrosive")))%Q.
Proof.
  apply (proj2 (proj2 (application_4_corrosion_choice "Coastal / Corrosive"))).
  - right. right. left. reflexivity.
  - reflexivity.
Defined.

(** Whatever the two results, the text shown by Application 1 names the
    material of the recommendation, and no other. *)
Theorem message_names_winner (s a : BeamResult) :
  (index 0 "**STEEL**" (message (select_winner s a)) <> None
   <-> fst (select_winner s a) = STEEL) /\
  (index 0 "**ALUMINIUM**" (message (select_winner s a)) <> None
   <-> fst (select_winner s a) = ALUMINIUM).
Proof.
  rewrite select_winner_cases.
  destruct (PASS s), (PASS a), (Cost_RM s <? Cost_RM a);
    vm_compute; split; split; intros H;
    solve [reflexivity | discriminate | exfalso; now apply H].
Qed.
